(** * pelicanconf.py: the settings module of the blog

    The repository is one Python module, [pelicanconf.py]: 27 top-level
    assignments of literal values, read once by the site generator.

    The module is embedded as a program of a small fragment of Python:
    literal displays and assignment, which the module uses, and name
    reads, deletion and branching, which it does not use and against
    which its flatness is stated.  Its evaluation yields the settings
    record, and the properties below are properties of that record and of
    that evaluation.

    Conventions.  A Python [str] is a [string] holding the UTF-8 bytes of
    the source text; a Python [int] is a [Z]; a [dict] is an association
    list in insertion order; the module namespace is a [gmap]. *)

From Stdlib Require Import ZArith String Ascii List Bool Lia DecimalString.
From stdpp Require Import base option list gmap strings fin_maps.

Set Warnings "-register-all".

Local Open Scope string_scope.
Local Open Scope Z_scope.

(** ** Values *)

Inductive value : Type :=
| VNone
| VBool (b : bool)
| VInt (n : Z)
| VStr (s : string)
| VList (l : list value)
| VTuple (l : list value)
| VDict (d : list (value * value)).

Inductive pytype : Type :=
  TNoneType | TBool | TInt | TStr | TList | TTuple | TDict.

Definition type_of (v : value) : pytype :=
  match v with
  | VNone => TNoneType
  | VBool _ => TBool
  | VInt _ => TInt
  | VStr _ => TStr
  | VList _ => TList
  | VTuple _ => TTuple
  | VDict _ => TDict
  end.

Global Instance pytype_eq_dec : EqDecision pytype.
Proof. solve_decision. Defined.

(** Induction over values that reaches the elements of lists, tuples and
    dictionaries. *)
Section value_induction.
Variable P : value → Prop.
Hypothesis HNone : P VNone.
Hypothesis HBool : ∀ b, P (VBool b).
Hypothesis HInt : ∀ n, P (VInt n).
Hypothesis HStr : ∀ s, P (VStr s).
Hypothesis HList : ∀ l, Forall P l → P (VList l).
Hypothesis HTuple : ∀ l, Forall P l → P (VTuple l).
Hypothesis HDict :
  ∀ d, Forall (λ kv, P kv.1 ∧ P kv.2) d → P (VDict d).

Fixpoint value_nested_ind (v : value) : P v :=
  match v with
  | VNone => HNone
  | VBool b => HBool b
  | VInt n => HInt n
  | VStr s => HStr s
  | VList l =>
      HList l ((fix go (l : list value) : Forall P l :=
                  match l with
                  | [] => Forall_nil_2 P
                  | x :: l' => Forall_cons_2 P x l' (value_nested_ind x) (go l')
                  end) l)
  | VTuple l =>
      HTuple l ((fix go (l : list value) : Forall P l :=
                   match l with
                   | [] => Forall_nil_2 P
                   | x :: l' => Forall_cons_2 P x l' (value_nested_ind x) (go l')
                   end) l)
  | VDict d =>
      HDict d ((fix go (d : list (value * value))
                  : Forall (λ kv, P kv.1 ∧ P kv.2) d :=
                  match d with
                  | [] => Forall_nil_2 _
                  | (k, x) :: d' =>
                      Forall_cons_2 (λ kv, P kv.1 ∧ P kv.2) (k, x) d'
                        (conj (value_nested_ind k) (value_nested_ind x)) (go d')
                  end) d)
  end.
End value_induction.

(** *** Hashing and key equality

    Only [None], numbers, strings and tuples of hashable values can be
    dictionary keys; lists and dictionaries are unhashable. *)
Fixpoint hashable (v : value) : bool :=
  match v with
  | VNone | VBool _ | VInt _ | VStr _ => true
  | VTuple l => forallb hashable l
  | VList _ | VDict _ => false
  end.

(** [k1 == k2] on hashable values: [True == 1] and [False == 0]. *)
Fixpoint key_eqb (v w : value) : bool :=
  match v, w with
  | VNone, VNone => true
  | VBool a, VBool b => Bool.eqb a b
  | VBool a, VInt n | VInt n, VBool a => Z.eqb (Z.b2z a) n
  | VInt m, VInt n => Z.eqb m n
  | VStr s, VStr t => String.eqb s t
  | VTuple l, VTuple l' =>
      (fix all2 (l l' : list value) : bool :=
         match l, l' with
         | [], [] => true
         | x :: l, y :: l' => key_eqb x y && all2 l l'
         | _, _ => false
         end) l l'
  | _, _ => false
  end.

(** [d[k] = v]: an existing entry keeps its key and its position and takes
    the new value; a new entry goes last. *)
Fixpoint dict_set (k v : value) (d : list (value * value)) : list (value * value) :=
  match d with
  | [] => [(k, v)]
  | (k', v') :: d' =>
      if key_eqb k' k then (k', v) :: d' else (k', v') :: dict_set k v d'
  end.

Definition dict_keys (d : list (value * value)) : list value := d.*1.
Definition dict_values (d : list (value * value)) : list value := d.*2.

(** Truth value of an object, as [if] tests it. *)
Definition truthy (v : value) : bool :=
  match v with
  | VNone => false
  | VBool b => b
  | VInt n => negb (Z.eqb n 0)
  | VStr s => negb (String.eqb s "")
  | VList l | VTuple l => negb (Nat.eqb (length l) 0)
  | VDict d => negb (Nat.eqb (length d) 0)
  end.

(** ** Errors *)

Inductive exn : Type :=
| NameError (x : string)   (* name 'x' is not defined *)
| TypeError (v : value).   (* unhashable type *)

Inductive result (A : Type) : Type :=
| Ok (a : A)
| Raise (e : exn).
Arguments Ok {A} a.
Arguments Raise {A} e.

Global Instance result_ret : MRet result := λ A a, Ok a.
Global Instance result_bind : MBind result := λ A B f m,
  match m with
  | Ok a => f a
  | Raise e => Raise e
  end.

Definition succeeds {A} (r : result A) : Prop := ∃ a, r = Ok a.

(** ** Expressions *)

Inductive expr : Type :=
| ENone
| EBool (b : bool)
| EInt (n : Z)
| EStr (s : string)
| EName (x : string)
| EList (es : list expr)
| ETuple (es : list expr)
| EDict (kvs : list (expr * expr)).

(** The dictionary a display builds from its evaluated items, left to
    right; a later duplicate key overwrites the value of the earlier one. *)
Fixpoint build_dict (items : list (value * value)) (d : list (value * value))
  : result (list (value * value)) :=
  match items with
  | [] => Ok d
  | (k, v) :: items' =>
      if hashable k then build_dict items' (dict_set k v d) else Raise (TypeError k)
  end.

Fixpoint eval (σ : gmap string value) (e : expr) : result value :=
  match e with
  | ENone => Ok VNone
  | EBool b => Ok (VBool b)
  | EInt n => Ok (VInt n)
  | EStr s => Ok (VStr s)
  | EName x =>
      match σ !! x with
      | Some v => Ok v
      | None => Raise (NameError x)
      end
  | EList es =>
      l ← (fix evals (es : list expr) : result (list value) :=
             match es with
             | [] => Ok []
             | e :: es' => v ← eval σ e; l ← evals es'; Ok (v :: l)
             end) es;
      Ok (VList l)
  | ETuple es =>
      l ← (fix evals (es : list expr) : result (list value) :=
             match es with
             | [] => Ok []
             | e :: es' => v ← eval σ e; l ← evals es'; Ok (v :: l)
             end) es;
      Ok (VTuple l)
  | EDict kvs =>
      items ← (fix evals (kvs : list (expr * expr)) : result (list (value * value)) :=
                 match kvs with
                 | [] => Ok []
                 | (ek, ev) :: kvs' =>
                     k ← eval σ ek; v ← eval σ ev; l ← evals kvs'; Ok ((k, v) :: l)
                 end) kvs;
      d ← build_dict items [];
      Ok (VDict d)
  end.

(** ** Statements *)

Inductive stmt : Type :=
| SAssign (x : string) (e : expr)           (* x = e *)
| SDel (x : string)                         (* del x *)
| SIf (c : expr) (body orelse : list stmt). (* if c: body else: orelse *)

Fixpoint exec (s : stmt) (σ : gmap string value) : result (gmap string value) :=
  match s with
  | SAssign x e => v ← eval σ e; Ok (<[x:=v]> σ)
  | SDel x =>
      match σ !! x with
      | Some _ => Ok (delete x σ)
      | None => Raise (NameError x)
      end
  | SIf c body orelse =>
      v ← eval σ c;
      let run := fix run (ss : list stmt) (σ : gmap string value) :=
        match ss with
        | [] => Ok σ
        | s :: ss' => σ' ← exec s σ; run ss' σ'
        end in
      if truthy v then run body σ else run orelse σ
  end.

Fixpoint exec_module (m : list stmt) (σ : gmap string value)
  : result (gmap string value) :=
  match m with
  | [] => Ok σ
  | s :: m' => σ' ← exec s σ; exec_module m' σ'
  end.

(** ** The module [pelicanconf.py]

    One [SAssign] per assignment, in source order; comments and blank
    lines carry no statement.  The parentheses doubled around
    [DIRECT_TEMPLATES] group a single tuple display. *)

Definition nl : string := String "010"%char EmptyString.

Definition pelicanconf : list stmt := [
  SAssign "AUTHOR" (EStr "Leon Ramzews");
  SAssign "SITENAME" (EStr "Road to Dev");
  SAssign "SITEURL" (EStr "http://127.0.0.1:8000");
  SAssign "TIMEZONE" (EStr "Europe/Berlin");
  SAssign "DEFAULT_LANG" (EStr "en");
  SAssign "SUBTITLE" (EStr "Hey, my name is Leon.");
  SAssign "SUBTEXT"
    (EStr ("I'm an aspiring programmer. " +:+ nl +:+
           "This blog documents the knowledge and insights I gather along the way, sharing my progress and discoveries on the road to dev." +:+ nl +:+
           "Written with the help of GPT." +:+ nl));
  SAssign "COPYRIGHT" (EStr "©2024");
  SAssign "PATH" (EStr "content");
  SAssign "THEME" (EStr "themes/Papyrus");
  SAssign "THEME_STATIC_PATHS" (EList [EStr "static"]);
  SAssign "PLUGIN_PATHS" (EList [EStr "pelican-plugins"]);
  SAssign "PLUGINS" (EList [EStr "pelican-toc"]);
  SAssign "STATIC_PATHS"
    (EList [EStr "images"; EStr "images/favicon.ico"; EStr "extra/robots.txt"]);
  SAssign "EXTRA_PATH_METADATA"
    (EDict [(EStr "extra/robots.txt", EDict [(EStr "path", EStr "robots.txt")]);
            (EStr "images/favicon.ico", EDict [(EStr "path", EStr "favicon.ico")])]);
  SAssign "DISPLAY_PAGES_ON_MENU" (EBool true);
  SAssign "DIRECT_TEMPLATES"
    (ETuple [EStr "index"; EStr "tags"; EStr "categories"; EStr "archives"]);
  SAssign "PAGINATED_TEMPLATES"
    (EDict [(EStr "index", ENone); (EStr "tag", ENone); (EStr "category", ENone);
            (EStr "author", ENone); (EStr "archives", EInt 24)]);
  SAssign "TOC"
    (EDict [(EStr "TOC_HEADERS", EStr "^h[1-3]");
            (EStr "TOC_RUN", EStr "true");
            (EStr "TOC_INCLUDE_TITLE", EStr "false")]);
  SAssign "FEED_ALL_ATOM" (EStr "feeds/all.atom.xml");
  SAssign "CATEGORY_FEED_ATOM" ENone;
  SAssign "TRANSLATION_FEED_ATOM" ENone;
  SAssign "AUTHOR_FEED_ATOM" ENone;
  SAssign "AUTHOR_FEED_RSS" ENone;
  SAssign "RSS_FEED_SUMMARY_ONLY" (EBool true);
  SAssign "SHARE"
    (ETuple [
       ETuple [EStr "twitter"; EStr "https://twitter.com/intent/tweet/?text=Features&amp;url="];
       ETuple [EStr "linkedin"; EStr "https://www.linkedin.com/sharing/share-offsite/?url="];
       ETuple [EStr "reddit"; EStr "https://reddit.com/submit?url="];
       ETuple [EStr "facebook"; EStr "https://facebook.com/sharer/sharer.php?u="];
       ETuple [EStr "whatsapp"; EStr "https://api.whatsapp.com/send?text=Features - "];
       ETuple [EStr "telegram"; EStr "https://telegram.me/share/url?text=Features&amp;url="]]);
  SAssign "DEFAULT_PAGINATION" (EInt 8)
].

(** The settings the generator reads: the namespace left by running the
    module from an empty one, and one key of it. *)
Definition load (m : list stmt) : result (gmap string value) := exec_module m ∅.

Definition setting (k : string) : option value :=
  match load pelicanconf with
  | Ok σ => σ !! k
  | Raise _ => None
  end.

(** The record the module denotes, written out key by key. *)
Definition settings_items : list (string * value) := [
  ("AUTHOR", VStr "Leon Ramzews");
  ("SITENAME", VStr "Road to Dev");
  ("SITEURL", VStr "http://127.0.0.1:8000");
  ("TIMEZONE", VStr "Europe/Berlin");
  ("DEFAULT_LANG", VStr "en");
  ("SUBTITLE", VStr "Hey, my name is Leon.");
  ("SUBTEXT",
    VStr ("I'm an aspiring programmer. " +:+ nl +:+
          "This blog documents the knowledge and insights I gather along the way, sharing my progress and discoveries on the road to dev." +:+ nl +:+
          "Written with the help of GPT." +:+ nl));
  ("COPYRIGHT", VStr "©2024");
  ("PATH", VStr "content");
  ("THEME", VStr "themes/Papyrus");
  ("THEME_STATIC_PATHS", VList [VStr "static"]);
  ("PLUGIN_PATHS", VList [VStr "pelican-plugins"]);
  ("PLUGINS", VList [VStr "pelican-toc"]);
  ("STATIC_PATHS",
    VList [VStr "images"; VStr "images/favicon.ico"; VStr "extra/robots.txt"]);
  ("EXTRA_PATH_METADATA",
    VDict [(VStr "extra/robots.txt", VDict [(VStr "path", VStr "robots.txt")]);
           (VStr "images/favicon.ico", VDict [(VStr "path", VStr "favicon.ico")])]);
  ("DISPLAY_PAGES_ON_MENU", VBool true);
  ("DIRECT_TEMPLATES",
    VTuple [VStr "index"; VStr "tags"; VStr "categories"; VStr "archives"]);
  ("PAGINATED_TEMPLATES",
    VDict [(VStr "index", VNone); (VStr "tag", VNone); (VStr "category", VNone);
           (VStr "author", VNone); (VStr "archives", VInt 24)]);
  ("TOC",
    VDict [(VStr "TOC_HEADERS", VStr "^h[1-3]");
           (VStr "TOC_RUN", VStr "true");
           (VStr "TOC_INCLUDE_TITLE", VStr "false")]);
  ("FEED_ALL_ATOM", VStr "feeds/all.atom.xml");
  ("CATEGORY_FEED_ATOM", VNone);
  ("TRANSLATION_FEED_ATOM", VNone);
  ("AUTHOR_FEED_ATOM", VNone);
  ("AUTHOR_FEED_RSS", VNone);
  ("RSS_FEED_SUMMARY_ONLY", VBool true);
  ("SHARE",
    VTuple [
      VTuple [VStr "twitter"; VStr "https://twitter.com/intent/tweet/?text=Features&amp;url="];
      VTuple [VStr "linkedin"; VStr "https://www.linkedin.com/sharing/share-offsite/?url="];
      VTuple [VStr "reddit"; VStr "https://reddit.com/submit?url="];
      VTuple [VStr "facebook"; VStr "https://facebook.com/sharer/sharer.php?u="];
      VTuple [VStr "whatsapp"; VStr "https://api.whatsapp.com/send?text=Features - "];
      VTuple [VStr "telegram"; VStr "https://telegram.me/share/url?text=Features&amp;url="]]);
  ("DEFAULT_PAGINATION", VInt 8)
].

Definition settings : gmap string value := list_to_map settings_items.

(** ** Static shape of a module *)

(** Names a statement may bind, and names it may unbind. *)
Fixpoint assigned_in (s : stmt) : list string :=
  match s with
  | SAssign x _ => [x]
  | SDel _ => []
  | SIf _ body orelse => flat_map assigned_in body ++ flat_map assigned_in orelse
  end.

Fixpoint deleted_in (s : stmt) : list string :=
  match s with
  | SAssign _ _ => []
  | SDel x => [x]
  | SIf _ body orelse => flat_map deleted_in body ++ flat_map deleted_in orelse
  end.

Definition assigned (m : list stmt) : list string := flat_map assigned_in m.
Definition deleted (m : list stmt) : list string := flat_map deleted_in m.

Definition is_assign (s : stmt) : bool :=
  match s with
  | SAssign _ _ => true
  | _ => false
  end.

(** An expression that reads no name. *)
Fixpoint closed (e : expr) : bool :=
  match e with
  | ENone | EBool _ | EInt _ | EStr _ => true
  | EName _ => false
  | EList es | ETuple es => forallb closed es
  | EDict kvs => forallb (λ kv, closed kv.1 && closed kv.2) kvs
  end.

(** A literal that denotes a hashable object. *)
Fixpoint key_literal (e : expr) : bool :=
  match e with
  | ENone | EBool _ | EInt _ | EStr _ => true
  | ETuple es => forallb key_literal es
  | EName _ | EList _ | EDict _ => false
  end.

(** A literal display: constants, and lists, tuples and dictionaries of
    literal displays, every dictionary key a hashable literal. *)
Fixpoint literal (e : expr) : bool :=
  match e with
  | ENone | EBool _ | EInt _ | EStr _ => true
  | EName _ => false
  | EList es | ETuple es => forallb literal es
  | EDict kvs => forallb (λ kv, key_literal kv.1 && literal kv.2) kvs
  end.

(** A flat declaration: [NAME = literal]. *)
Definition declaration (s : stmt) : bool :=
  match s with
  | SAssign _ e => literal e
  | _ => false
  end.

(** Named forms of the local loops of [eval]. *)
Definition eval_list (σ : gmap string value) : list expr → result (list value) :=
  fix evals (es : list expr) : result (list value) :=
    match es with
    | [] => Ok []
    | e :: es' => v ← eval σ e; l ← evals es'; Ok (v :: l)
    end.

Definition eval_items (σ : gmap string value)
  : list (expr * expr) → result (list (value * value)) :=
  fix evals (kvs : list (expr * expr)) : result (list (value * value)) :=
    match kvs with
    | [] => Ok []
    | (ek, ev) :: kvs' =>
        k ← eval σ ek; v ← eval σ ev; l ← evals kvs'; Ok ((k, v) :: l)
    end.

(** ** Values as literals *)

(** The literal display that denotes a value. *)
Fixpoint quote (v : value) : expr :=
  match v with
  | VNone => ENone
  | VBool b => EBool b
  | VInt n => EInt n
  | VStr s => EStr s
  | VList l => EList (map quote l)
  | VTuple l => ETuple (map quote l)
  | VDict d => EDict (map (λ kv, (quote kv.1, quote kv.2)) d)
  end.

(** No key of the list equals a later one. *)
Fixpoint distinct_keys (ks : list value) : bool :=
  match ks with
  | [] => true
  | k :: ks' => forallb (λ k', negb (key_eqb k k')) ks' && distinct_keys ks'
  end.

(** The objects a dictionary can hold together: every dictionary inside
    has hashable, pairwise different keys. *)
Fixpoint valid (v : value) : bool :=
  match v with
  | VNone | VBool _ | VInt _ | VStr _ => true
  | VList l | VTuple l => forallb valid l
  | VDict d =>
      forallb (λ kv, hashable kv.1 && valid kv.1 && valid kv.2) d
      && distinct_keys (map fst d)
  end.

(** ** Schema predicates *)

Fixpoint string_mem (c : ascii) (s : string) : bool :=
  match s with
  | EmptyString => false
  | String c' r => Ascii.eqb c c' || string_mem c r
  end.

Fixpoint strip_prefix (p s : string) : option string :=
  match p, s with
  | EmptyString, _ => Some s
  | String a p', String b s' => if Ascii.eqb a b then strip_prefix p' s' else None
  | String _ _, EmptyString => None
  end.

Definition ends_with (suffix s : string) : bool :=
  match strip_prefix (String.rev suffix) (String.rev s) with
  | Some _ => true
  | None => false
  end.

Definition in_range (lo hi c : ascii) : bool :=
  (nat_of_ascii lo <=? nat_of_ascii c)%nat && (nat_of_ascii c <=? nat_of_ascii hi)%nat.

Definition is_alpha (c : ascii) : bool := in_range "A" "Z" c || in_range "a" "z" c.
Definition is_digit (c : ascii) : bool := in_range "0" "9" c.
Definition is_hexdigit (c : ascii) : bool :=
  is_digit c || in_range "A" "F" c || in_range "a" "f" c.

(** The characters of a URI (RFC 3986, section 2): unreserved characters,
    the general and the sub-delimiters; anything else has to be
    percent-encoded.  A space is none of them. *)
Definition unreserved (c : ascii) : bool := is_alpha c || is_digit c || string_mem c "-._~".
Definition gen_delim (c : ascii) : bool := string_mem c ":/?#[]@".
Definition sub_delim (c : ascii) : bool := string_mem c "!$&'()*+,;=".
Definition uri_char (c : ascii) : bool := unreserved c || gen_delim c || sub_delim c.

(** Every character is accepted by [ok], or opens a percent-encoded octet. *)
Fixpoint uri_chars (ok : ascii → bool) (s : string) : bool :=
  match s with
  | EmptyString => true
  | String c r =>
      if Ascii.eqb c "%" then
        match r with
        | String h1 (String h2 r') => is_hexdigit h1 && is_hexdigit h2 && uri_chars ok r'
        | _ => false
        end
      else ok c && uri_chars ok r
  end.

(** The host: what stands between the scheme and the first of [/ ? #]. *)
Fixpoint host_of (s : string) : string :=
  match s with
  | EmptyString => EmptyString
  | String c r => if string_mem c "/?#" then EmptyString else String c (host_of r)
  end.

Definition after_scheme (u : string) : option string :=
  match strip_prefix "https://" u with
  | Some r => Some r
  | None => strip_prefix "http://" u
  end.

(** A URL prefix over the characters [ok]: an http(s) scheme, a non-empty
    host, and nothing but [ok] characters and percent-encoded octets. *)
Definition url_template_over (ok : ascii → bool) (u : string) : bool :=
  match after_scheme u with
  | Some rest => negb (String.eqb (host_of rest) "") && uri_chars ok u
  | None => false
  end.

Definition well_formed_url_template (u : string) : bool := url_template_over uri_char u.

(** The same, with the space let through unencoded. *)
Definition url_template_with_spaces (u : string) : bool :=
  url_template_over (λ c, uri_char c || Ascii.eqb c " ") u.

(** One entry of [SHARE], with the test its template has to pass. *)
Definition share_entry (template_ok : string → bool) (v : value) : bool :=
  match v with
  | VTuple [VStr name; VStr template] =>
      negb (String.eqb name "") && template_ok template
  | _ => false
  end.

(** A feed of a given kind is written when its path setting is a string. *)
Definition is_feed_path_key (k : string) : bool := ends_with "_ATOM" k || ends_with "_RSS" k.

Definition feed_enabled (k : string) : bool :=
  match setting k with
  | Some (VStr _) => true
  | _ => false
  end.

(** ** The text of a settings module

    Modelled from the spec: the reader and the writer of the configuration
    text, which the spec names (parsing the file into a settings record,
    re-emitting it) and the repository does not contain.  The writer prints
    one [NAME = repr(value)] line per key, as Python's [repr] spells the
    values; the reader is Python's reading of that notation, restricted to
    assignments of literal displays, and refuses what it does not cover. *)

Definition dq : ascii := "034"%char.
Definition backslash : ascii := "\"%char.
Definition newline : ascii := "010"%char.

Definition hex_char (n : nat) : ascii :=
  match String.get n "0123456789abcdef" with
  | Some c => c
  | None => "0"%char
  end.

Definition hex_value (c : ascii) : nat :=
  if is_digit c then nat_of_ascii c - 48
  else if in_range "a" "f" c then nat_of_ascii c - 87
  else nat_of_ascii c - 55.

(** *** Writer *)

(** One character inside the quotes [q]: the quote and the backslash are
    escaped, control characters are written as [\n], [\r], [\t] or
    [\xhh].  A byte above 127 is part of the UTF-8 encoding of a character
    and is kept: such characters are taken to be printable, as the one of
    the file is. *)
Definition escape_char (q c : ascii) : string :=
  let n := nat_of_ascii c in
  if Ascii.eqb c q || Ascii.eqb c backslash then
    String backslash (String c EmptyString)
  else if Ascii.eqb c newline then String backslash "n"
  else if Ascii.eqb c "013" then String backslash "r"
  else if Ascii.eqb c "009" then String backslash "t"
  else if (n <? 32)%nat || (n =? 127)%nat then
    String backslash
      (String "x" (String (hex_char (n / 16))
                     (String (hex_char (n mod 16)) EmptyString)))
  else String c EmptyString.

Fixpoint escape (q : ascii) (s : string) : string :=
  match s with
  | EmptyString => EmptyString
  | String c r => escape_char q c +:+ escape q r
  end.

(** [repr] of a [str]: single quotes, unless the text holds a single quote
    and no double quote. *)
Definition repr_str (s : string) : string :=
  let q := if string_mem "'" s && negb (string_mem dq s) then dq else "'"%char in
  String q (escape q s +:+ String q EmptyString).

Definition repr_int (n : Z) : string := NilZero.string_of_int (Z.to_int n).

Fixpoint repr (v : value) : string :=
  match v with
  | VNone => "None"
  | VBool true => "True"
  | VBool false => "False"
  | VInt n => repr_int n
  | VStr s => repr_str s
  | VList l => "[" +:+ String.concat ", " (map repr l) +:+ "]"
  | VTuple l =>
      match l with
      | [x] => "(" +:+ repr x +:+ ",)"
      | _ => "(" +:+ String.concat ", " (map repr l) +:+ ")"
      end
  | VDict d =>
      "{" +:+ String.concat ", " (map (λ kv, repr kv.1 +:+ ": " +:+ repr kv.2) d) +:+ "}"
  end.

(** Modelled from the spec: re-emitting a settings record as text. *)
Definition emit (r : gmap string value) : string :=
  String.concat ""
    (map (λ kv, kv.1 +:+ " = " +:+ repr kv.2 +:+ String newline EmptyString) (map_to_list r)).

(** The module of a record's declarations: what [emit] prints, before
    printing. *)
Definition emit_module (r : gmap string value) : list stmt :=
  map (λ kv, SAssign kv.1 (quote kv.2)) (map_to_list r).

(** *** Tokens *)

Inductive bracket : Type := Paren | Square | Brace.

Global Instance bracket_eq_dec : EqDecision bracket.
Proof. solve_decision. Defined.

Inductive token : Type :=
| TokName (x : string)
| TokInt (n : Z)
| TokStr (s : string)
| TokNewline
| TokAssign
| TokComma
| TokColon
| TokMinus
| TokOpen (b : bracket)
| TokClose (b : bracket).

Inductive lex_state : Type :=
| LBol                                          (* start of a line, outside brackets *)
| LIndent                                       (* blanks at the start of such a line *)
| LCode                                         (* between tokens *)
| LComment                                      (* after #, up to the end of the line *)
| LName (buf : string)                          (* in an identifier (reversed) *)
| LInt (n : Z) (zero : bool)                    (* in a number; zero: it began with 0 *)
| LOpen1 (q : ascii)                            (* one opening quote read *)
| LOpen2 (q : ascii)                            (* two opening quotes read *)
| LStr (q : ascii) (triple : bool) (buf : string)
| LEsc (q : ascii) (triple : bool) (buf : string)
| LHex1 (q : ascii) (triple : bool) (buf : string)
| LHex2 (q : ascii) (triple : bool) (buf : string) (h : ascii)
| LClose1 (q : ascii) (buf : string)            (* in a triple-quoted string, one quote read *)
| LClose2 (q : ascii) (buf : string).           (* two quotes read *)

Definition is_blank (c : ascii) : bool := Ascii.eqb c " " || Ascii.eqb c "009".
Definition is_ident_start (c : ascii) : bool := is_alpha c || Ascii.eqb c "_".
Definition is_ident_char (c : ascii) : bool := is_ident_start c || is_digit c.

Definition bracket_of (c : ascii) : option (bool * bracket) :=
  if Ascii.eqb c "(" then Some (true, Paren)
  else if Ascii.eqb c ")" then Some (false, Paren)
  else if Ascii.eqb c "[" then Some (true, Square)
  else if Ascii.eqb c "]" then Some (false, Square)
  else if Ascii.eqb c "{" then Some (true, Brace)
  else if Ascii.eqb c "}" then Some (false, Brace)
  else None.

(** The escapes of one character that the reader knows. *)
Definition unescape (c : ascii) : option ascii :=
  if Ascii.eqb c backslash || Ascii.eqb c "'" || Ascii.eqb c dq then Some c
  else if Ascii.eqb c "n" then Some newline
  else if Ascii.eqb c "r" then Some "013"%char
  else if Ascii.eqb c "t" then Some "009"%char
  else None.

(** The UTF-8 bytes of the code point below 256 that [\xhh] names, pushed
    on a reversed buffer. *)
Definition push_code_point (n : nat) (buf : string) : string :=
  if (n <? 128)%nat then String (ascii_of_nat n) buf
  else String (ascii_of_nat (128 + n mod 64)) (String (ascii_of_nat (192 + n / 64)) buf).

Definition lexer : Type := lex_state * nat * list token.

(** A character met between tokens ([bol]: at the start of a line). *)
Definition code_step (bol : bool) (depth : nat) (acc : list token) (c : ascii)
  : option lexer :=
  if is_blank c then Some (if bol then LIndent else LCode, depth, acc)
  else if Ascii.eqb c newline then
    Some (match depth with
          | O => (LBol, depth, TokNewline :: acc)
          | S _ => (LCode, depth, acc)
          end)
  else if Ascii.eqb c "#" then Some (LComment, depth, acc)
  else if Ascii.eqb c "'" || Ascii.eqb c dq then Some (LOpen1 c, depth, acc)
  else if is_digit c then
    Some (LInt (Z.of_nat (hex_value c)) (Ascii.eqb c "0"), depth, acc)
  else if is_ident_start c then Some (LName (String c EmptyString), depth, acc)
  else if Ascii.eqb c "=" then Some (LCode, depth, TokAssign :: acc)
  else if Ascii.eqb c "," then Some (LCode, depth, TokComma :: acc)
  else if Ascii.eqb c ":" then Some (LCode, depth, TokColon :: acc)
  else if Ascii.eqb c "-" then Some (LCode, depth, TokMinus :: acc)
  else
    match bracket_of c with
    | Some (true, b) => Some (LCode, S depth, TokOpen b :: acc)
    | Some (false, b) =>
        match depth with
        | O => None
        | S depth' => Some (LCode, depth', TokClose b :: acc)
        end
    | None => None
    end.

(** A character met inside a string literal. *)
Definition string_step (q : ascii) (triple : bool) (buf : string)
    (depth : nat) (acc : list token) (c : ascii) : option lexer :=
  if Ascii.eqb c backslash then Some (LEsc q triple buf, depth, acc)
  else if Ascii.eqb c q then
    Some (if triple then (LClose1 q buf, depth, acc)
          else (LCode, depth, TokStr (String.rev buf) :: acc))
  else if Ascii.eqb c newline && negb triple then None
  else Some (LStr q triple (String c buf), depth, acc).

Definition lex_step (st : lexer) (c : ascii) : option lexer :=
  let '(s, depth, acc) := st in
  match s with
  | LBol => code_step true depth acc c
  | LCode => code_step false depth acc c
  | LIndent =>
      if is_blank c then Some (LIndent, depth, acc)
      else if Ascii.eqb c newline then Some (LBol, depth, acc)
      else if Ascii.eqb c "#" then Some (LComment, depth, acc)
      else None
  | LComment =>
      if Ascii.eqb c newline then code_step false depth acc c
      else Some (LComment, depth, acc)
  | LName buf =>
      if is_ident_char c then Some (LName (String c buf), depth, acc)
      else code_step false depth (TokName (String.rev buf) :: acc) c
  | LInt n zero =>
      if is_digit c then
        if zero then None
        else Some (LInt (10 * n + Z.of_nat (hex_value c)) false, depth, acc)
      else if is_ident_start c || Ascii.eqb c "." then None
      else code_step false depth (TokInt n :: acc) c
  | LOpen1 q =>
      if Ascii.eqb c q then Some (LOpen2 q, depth, acc)
      else string_step q false EmptyString depth acc c
  | LOpen2 q =>
      if Ascii.eqb c q then Some (LStr q true EmptyString, depth, acc)
      else code_step false depth (TokStr EmptyString :: acc) c
  | LStr q triple buf => string_step q triple buf depth acc c
  | LEsc q triple buf =>
      if Ascii.eqb c "x" then Some (LHex1 q triple buf, depth, acc)
      else if Ascii.eqb c newline then Some (LStr q triple buf, depth, acc)
      else
        match unescape c with
        | Some c' => Some (LStr q triple (String c' buf), depth, acc)
        | None => None
        end
  | LHex1 q triple buf =>
      if is_hexdigit c then Some (LHex2 q triple buf c, depth, acc) else None
  | LHex2 q triple buf h =>
      if is_hexdigit c then
        Some (LStr q triple (push_code_point (16 * hex_value h + hex_value c) buf),
              depth, acc)
      else None
  | LClose1 q buf =>
      if Ascii.eqb c q then Some (LClose2 q buf, depth, acc)
      else string_step q true (String q buf) depth acc c
  | LClose2 q buf =>
      if Ascii.eqb c q then Some (LCode, depth, TokStr (String.rev buf) :: acc)
      else string_step q true (String q (String q buf)) depth acc c
  end.

(** What the end of the text leaves: an open string or bracket is an error. *)
Definition lex_end (st : lexer) : option (list token) :=
  let '(s, depth, acc) := st in
  match depth with
  | S _ => None
  | O =>
      match s with
      | LBol | LIndent | LCode | LComment => Some (rev acc)
      | LName buf => Some (rev (TokName (String.rev buf) :: acc))
      | LInt n _ => Some (rev (TokInt n :: acc))
      | LOpen2 _ => Some (rev (TokStr EmptyString :: acc))
      | _ => None
      end
  end.

Fixpoint lex_from (st : lexer) (s : string) : option (list token) :=
  match s with
  | EmptyString => lex_end st
  | String c r =>
      match lex_step st c with
      | Some st' => lex_from st' r
      | None => None
      end
  end.

Definition tokenize (s : string) : option (list token) := lex_from (LBol, O, []) s.

(** *** Reader *)

Definition keywords : list string := [
  "and"; "as"; "assert"; "async"; "await"; "break"; "class"; "continue";
  "def"; "del"; "elif"; "else"; "except"; "finally"; "for"; "from";
  "global"; "if"; "import"; "in"; "is"; "lambda"; "nonlocal"; "not"; "or";
  "pass"; "raise"; "return"; "try"; "while"; "with"; "yield"].

Definition is_keyword (x : string) : bool := existsb (String.eqb x) keywords.

(** A name in an expression: a constant, or a variable. *)
Definition atom_of_name (x : string) : option expr :=
  if String.eqb x "None" then Some ENone
  else if String.eqb x "True" then Some (EBool true)
  else if String.eqb x "False" then Some (EBool false)
  else if is_keyword x then None
  else Some (EName x).

(** String literals that stand side by side are one string. *)
Fixpoint adjacent_strings (s : string) (ts : list token) : string * list token :=
  match ts with
  | TokStr s' :: ts' => adjacent_strings (s +:+ s') ts'
  | _ => (s, ts)
  end.

(** Recursive descent over the tokens; [fuel] bounds the depth of calls.
    [parse_elems] reads the elements of a display up to its closing
    bracket and tells whether a comma was read; [parse_items] reads the
    [key: value] items of a dictionary display. *)
Fixpoint parse_expr (fuel : nat) (ts : list token) {struct fuel}
  : option (expr * list token) :=
  match fuel with
  | O => None
  | S fuel =>
      match ts with
      | TokName x :: ts' => e ← atom_of_name x; Some (e, ts')
      | TokInt n :: ts' => Some (EInt n, ts')
      | TokMinus :: TokInt n :: ts' => Some (EInt (- n), ts')
      | TokStr s :: ts' =>
          let '(s', ts'') := adjacent_strings s ts' in Some (EStr s', ts'')
      | TokOpen Square :: ts' =>
          '(es, _, ts'') ← parse_elems fuel Square ts'; Some (EList es, ts'')
      | TokOpen Paren :: ts' =>
          '(es, comma, ts'') ← parse_elems fuel Paren ts';
          match es, comma with
          | [e], false => Some (e, ts'')
          | _, _ => Some (ETuple es, ts'')
          end
      | TokOpen Brace :: ts' =>
          '(kvs, ts'') ← parse_items fuel ts'; Some (EDict kvs, ts'')
      | _ => None
      end
  end
with parse_elems (fuel : nat) (close : bracket) (ts : list token) {struct fuel}
  : option (list expr * bool * list token) :=
  match fuel with
  | O => None
  | S fuel =>
      match ts with
      | TokClose b :: ts' => if decide (b = close) then Some ([], false, ts') else None
      | _ =>
          '(e, ts1) ← parse_expr fuel ts;
          match ts1 with
          | TokClose b :: ts2 =>
              if decide (b = close) then Some ([e], false, ts2) else None
          | TokComma :: ts2 =>
              '(es, _, ts3) ← parse_elems fuel close ts2; Some (e :: es, true, ts3)
          | _ => None
          end
      end
  end
with parse_items (fuel : nat) (ts : list token) {struct fuel}
  : option (list (expr * expr) * list token) :=
  match fuel with
  | O => None
  | S fuel =>
      match ts with
      | TokClose Brace :: ts' => Some ([], ts')
      | _ =>
          '(k, ts1) ← parse_expr fuel ts;
          match ts1 with
          | TokColon :: ts2 =>
              '(v, ts3) ← parse_expr fuel ts2;
              match ts3 with
              | TokClose Brace :: ts4 => Some ([(k, v)], ts4)
              | TokComma :: ts4 =>
                  '(kvs, ts5) ← parse_items fuel ts4; Some ((k, v) :: kvs, ts5)
              | _ => None
              end
          | _ => None
          end
      end
  end.

(** The statements of a module: [NAME = expression], one per line. *)
Fixpoint parse_stmts (fuel : nat) (ts : list token) : option (list stmt) :=
  match fuel with
  | O => None
  | S fuel =>
      match ts with
      | [] => Some []
      | TokNewline :: ts' => parse_stmts fuel ts'
      | TokName x :: TokAssign :: ts' =>
          if is_keyword x || existsb (String.eqb x) ["None"; "True"; "False"] then None
          else
            '(e, ts1) ← parse_expr (2 * length ts' + 2) ts';
            match ts1 with
            | [] => Some [SAssign x e]
            | TokNewline :: ts2 => m ← parse_stmts fuel ts2; Some (SAssign x e :: m)
            | _ => None
            end
      | _ => None
      end
  end.

Definition parse_module (text : string) : option (list stmt) :=
  ts ← tokenize text; parse_stmts (S (length ts)) ts.

(** Modelled from the spec: parsing a configuration text into a settings
    record.  [None] when the text is outside the notation read here. *)
Definition read (text : string) : option (result (gmap string value)) :=
  m ← parse_module text; Some (load m).

(** *** The text of [pelicanconf.py], line by line *)

Definition quoted (s : string) : string := String dq (s +:+ String dq EmptyString).

Definition pelicanconf_py : string := String.concat nl [
  "AUTHOR = 'Leon Ramzews'";
  "SITENAME = 'Road to Dev'";
  "SITEURL = 'http://127.0.0.1:8000'";
  "TIMEZONE = 'Europe/Berlin'";
  "DEFAULT_LANG = 'en'";
  "";
  "SUBTITLE = 'Hey, my name is Leon.'";
  "SUBTEXT = '''I'm an aspiring programmer. ";
  "This blog documents the knowledge and insights I gather along the way, sharing my progress and discoveries on the road to dev.";
  "Written with the help of GPT.";
  "'''";
  "COPYRIGHT = '©2024'";
  "PATH = 'content'";
  "THEME = 'themes/Papyrus'";
  "THEME_STATIC_PATHS = ['static']";
  "PLUGIN_PATHS = ['pelican-plugins']";
  "PLUGINS = [ 'pelican-toc']";
  "STATIC_PATHS = [";
  "    'images',";
  "    'images/favicon.ico',";
  "    'extra/robots.txt',";
  "    ]";
  "EXTRA_PATH_METADATA = {";
  "    'extra/robots.txt': {'path': 'robots.txt'},";
  "    'images/favicon.ico': {'path': 'favicon.ico'},";
  "    }";
  "DISPLAY_PAGES_ON_MENU = True";
  "DIRECT_TEMPLATES = (('index', 'tags', 'categories', 'archives',))";
  "PAGINATED_TEMPLATES = {'index': None, 'tag': None, 'category': None, 'author': None, 'archives': 24,}";
  "";
  "# Site search plugin";
  "# SEARCH_MODE = " +:+ quoted "output";
  "# SEARCH_HTML_SELECTOR = " +:+ quoted "main";
  "# Table of Content Plugin";
  "TOC = {";
  "    'TOC_HEADERS'       : '^h[1-3]', # What headers should be included in";
  "                                     # the generated toc";
  "                                     # Expected format is a regular expression";
  "    'TOC_RUN'           : 'true',    # Default value for toc generation,";
  "                                     # if it does not evaluate";
  "                                     # to 'true' no toc will be generated";
  "    'TOC_INCLUDE_TITLE': 'false',    # If 'true' include title in toc";
  "}";
  "";
  "# Feed generation is usually not desired when developing";
  "FEED_ALL_ATOM = 'feeds/all.atom.xml'";
  "CATEGORY_FEED_ATOM = None";
  "TRANSLATION_FEED_ATOM = None";
  "AUTHOR_FEED_ATOM = None";
  "AUTHOR_FEED_RSS = None";
  "RSS_FEED_SUMMARY_ONLY = True";
  "";
  "# Social widgets";
  "# SOCIAL = (";
  "#    ('github', 'https://github.com/aleylara/Papyrus/'),";
  "#    ('twitter', 'https://twitter.com/'),";
  "#)";
  "";
  "# Article share widgets";
  "SHARE = (";
  "    (" +:+ quoted "twitter" +:+ ", " +:+ quoted "https://twitter.com/intent/tweet/?text=Features&amp;url=" +:+ "),";
  "    (" +:+ quoted "linkedin" +:+ ", " +:+ quoted "https://www.linkedin.com/sharing/share-offsite/?url=" +:+ "),";
  "    (" +:+ quoted "reddit" +:+ ", " +:+ quoted "https://reddit.com/submit?url=" +:+ "),";
  "    (" +:+ quoted "facebook" +:+ ", " +:+ quoted "https://facebook.com/sharer/sharer.php?u=" +:+ "),";
  "    (" +:+ quoted "whatsapp" +:+ ", " +:+ quoted "https://api.whatsapp.com/send?text=Features - " +:+ "),";
  "    (" +:+ quoted "telegram" +:+ ", " +:+ quoted "https://telegram.me/share/url?text=Features&amp;url=" +:+ "),";
  ")";
  "";
  "DEFAULT_PAGINATION = 8";
  "";
  "# Uncomment following line if you want document-relative URLs when developing";
  "#RELATIVE_URLS = True";
  "";
  "# DISQUS_SITENAME = ''";
  "# GOOGLE_ANALYTICS = ''"
].

(** Induction over expressions that reaches the parts of displays. *)
Section expr_induction.
Variable P : expr → Prop.
Hypothesis HNone : P ENone.
Hypothesis HBool : ∀ b, P (EBool b).
Hypothesis HInt : ∀ n, P (EInt n).
Hypothesis HStr : ∀ s, P (EStr s).
Hypothesis HName : ∀ x, P (EName x).
Hypothesis HList : ∀ es, Forall P es → P (EList es).
Hypothesis HTuple : ∀ es, Forall P es → P (ETuple es).
Hypothesis HDict :
  ∀ kvs, Forall (λ kv, P kv.1 ∧ P kv.2) kvs → P (EDict kvs).

Fixpoint expr_nested_ind (e : expr) : P e :=
  match e with
  | ENone => HNone
  | EBool b => HBool b
  | EInt n => HInt n
  | EStr s => HStr s
  | EName x => HName x
  | EList es =>
      HList es ((fix go (es : list expr) : Forall P es :=
                   match es with
                   | [] => Forall_nil_2 P
                   | e :: es' => Forall_cons_2 P e es' (expr_nested_ind e) (go es')
                   end) es)
  | ETuple es =>
      HTuple es ((fix go (es : list expr) : Forall P es :=
                    match es with
                    | [] => Forall_nil_2 P
                    | e :: es' => Forall_cons_2 P e es' (expr_nested_ind e) (go es')
                    end) es)
  | EDict kvs =>
      HDict kvs ((fix go (kvs : list (expr * expr))
                    : Forall (λ kv, P kv.1 ∧ P kv.2) kvs :=
                    match kvs with
                    | [] => Forall_nil_2 _
                    | (k, x) :: kvs' =>
                        Forall_cons_2 (λ kv, P kv.1 ∧ P kv.2) (k, x) kvs'
                          (conj (expr_nested_ind k) (expr_nested_ind x)) (go kvs')
                    end) kvs)
  end.
End expr_induction.

(** ** Lookups, names and paths *)

(** [d[k]]: the value of the entry whose key equals [k]. *)
Fixpoint dict_get (k : value) (d : list (value * value)) : option value :=
  match d with
  | [] => None
  | (k', v') :: d' => if key_eqb k' k then Some v' else dict_get k d'
  end.

(** The strings of a string, or of a list or tuple of strings. *)
Definition strings_of (v : value) : list string :=
  match v with
  | VStr s => [s]
  | VList l | VTuple l =>
      omap (λ x, match x with VStr s => Some s | _ => None end) l
  | _ => []
  end.

Definition setting_strings (k : string) : list string :=
  match setting k with
  | Some v => strings_of v
  | None => []
  end.


(** The components of a path, which [/] separates. *)
Fixpoint split_path_from (acc s : string) : list string :=
  match s with
  | EmptyString => [String.rev acc]
  | String c r =>
      if Ascii.eqb c "/" then String.rev acc :: split_path_from EmptyString r
      else split_path_from (String c acc) r
  end.

Definition path_components (s : string) : list string :=
  split_path_from EmptyString s.

Definition basename (s : string) : string := List.last (path_components s) "".

(** A path that stays below the directory it is taken from: no component
    is empty (so it neither starts nor ends with [/]), [.] or [..]. *)
Definition relative_path (s : string) : bool :=
  forallb (λ c, negb (String.eqb c "") && negb (String.eqb c ".")
                && negb (String.eqb c ".."))
    (path_components s).

(** The source paths and the target paths of [EXTRA_PATH_METADATA]. *)
Definition metadata_sources (d : list (value * value)) : list string :=
  omap (λ kv, match kv.1 with VStr s => Some s | _ => None end) d.

Definition metadata_targets (d : list (value * value)) : list string :=
  omap (λ kv, match kv.2 with
              | VDict m =>
                  match dict_get (VStr "path") m with
                  | Some (VStr s) => Some s
                  | _ => None
                  end
              | _ => None
              end) d.

(** Every path the module names: content, theme, plugin and static paths,
    the sources and targets of the extra metadata, and the feed path. *)
Definition configured_paths : list string :=
  (setting_strings "PATH" ++ setting_strings "THEME"
   ++ setting_strings "THEME_STATIC_PATHS" ++ setting_strings "PLUGIN_PATHS"
   ++ setting_strings "STATIC_PATHS"
   ++ match setting "EXTRA_PATH_METADATA" with
      | Some (VDict d) => metadata_sources d ++ metadata_targets d
      | _ => []
      end
   ++ setting_strings "FEED_ALL_ATOM")%list.



(** The settings that describe the site and its layout in one string. *)
Definition text_settings : list string :=
  ["AUTHOR"; "SITENAME"; "SITEURL"; "TIMEZONE"; "DEFAULT_LANG"; "SUBTITLE";
   "SUBTEXT"; "COPYRIGHT"; "PATH"; "THEME"].

Definition single_line (s : string) : bool :=
  negb (string_mem newline s) && negb (string_mem "013" s).

(** ** Proof steps *)

(** Reading one key of the record, through the equation [eqn] that gives
    the record. *)
Ltac read_with eqn := rewrite eqn; vm_compute; reflexivity.

(** A property of each element of a list that is written out. *)
Ltac each_element tac :=
  repeat (apply Forall_cons_2; [tac|]); apply Forall_nil_2.

(** * Properties *)

(** ** Evaluation of displays *)

Lemma eval_EList σ es :
  eval σ (EList es) = l ← eval_list σ es; Ok (VList l).
Proof. reflexivity. Qed.

Lemma eval_ETuple σ es :
  eval σ (ETuple es) = l ← eval_list σ es; Ok (VTuple l).
Proof. reflexivity. Qed.

Lemma eval_EDict σ kvs :
  eval σ (EDict kvs) =
  items ← eval_items σ kvs; d ← build_dict items []; Ok (VDict d).
Proof. reflexivity. Qed.

Lemma eval_list_cons σ e es :
  eval_list σ (e :: es) = v ← eval σ e; l ← eval_list σ es; Ok (v :: l).
Proof. reflexivity. Qed.

Lemma eval_items_cons σ ek ev kvs :
  eval_items σ ((ek, ev) :: kvs) =
  k ← eval σ ek; v ← eval σ ev; l ← eval_items σ kvs; Ok ((k, v) :: l).
Proof. reflexivity. Qed.

Lemma bind_Ok {A B} (f : A → result B) (a : A) : (Ok a ≫= f) = f a.
Proof. reflexivity. Qed.

(** An expression that reads no name means the same in every namespace. *)
Lemma eval_closed e :
  closed e = true → ∀ σ σ', eval σ e = eval σ' e.
Proof.
  induction e as [| | | | x | es IH | es IH | kvs IH] using expr_nested_ind;
    simpl closed; intros Hc σ σ'; try reflexivity; try discriminate.
  - rewrite !eval_EList. f_equal.
    induction IH as [|e es He _ IHes]; [reflexivity|].
    apply andb_prop in Hc as [Hc1 Hc2].
    rewrite !eval_list_cons, (He Hc1 σ σ'), (IHes Hc2). reflexivity.
  - rewrite !eval_ETuple. f_equal.
    induction IH as [|e es He _ IHes]; [reflexivity|].
    apply andb_prop in Hc as [Hc1 Hc2].
    rewrite !eval_list_cons, (He Hc1 σ σ'), (IHes Hc2). reflexivity.
  - rewrite !eval_EDict. f_equal.
    induction IH as [|[ek ev] kvs [Hk Hv] _ IHkvs]; [reflexivity|].
    simpl in Hc. apply andb_prop in Hc as [Hc1 Hc2].
    apply andb_prop in Hc1 as [Hck Hcv]. cbn [fst snd] in Hk, Hv.
    rewrite !eval_items_cons, (Hk Hck σ σ'), (Hv Hcv σ σ'), (IHkvs Hc2).
    reflexivity.
Qed.

Lemma key_literal_closed e : key_literal e = true → closed e = true.
Proof.
  induction e as [| | | | x | es IH | es IH | kvs IH] using expr_nested_ind;
    simpl; intros Hk; try reflexivity; try discriminate.
  induction IH as [|e es He _ IHes]; [reflexivity|].
  simpl in *. apply andb_prop in Hk as [Hk1 Hk2].
  rewrite (He Hk1), (IHes Hk2). reflexivity.
Qed.

Lemma literal_closed e : literal e = true → closed e = true.
Proof.
  induction e as [| | | | x | es IH | es IH | kvs IH] using expr_nested_ind;
    simpl; intros Hl; try reflexivity; try discriminate.
  - induction IH as [|e es He _ IHes]; [reflexivity|].
    simpl in *. apply andb_prop in Hl as [Hl1 Hl2].
    rewrite (He Hl1), (IHes Hl2). reflexivity.
  - induction IH as [|e es He _ IHes]; [reflexivity|].
    simpl in *. apply andb_prop in Hl as [Hl1 Hl2].
    rewrite (He Hl1), (IHes Hl2). reflexivity.
  - induction IH as [|[ek ev] kvs [_ Hv] _ IHkvs]; [reflexivity|].
    simpl in *. apply andb_prop in Hl as [Hl1 Hl2].
    apply andb_prop in Hl1 as [Hk Hl1].
    rewrite (key_literal_closed _ Hk), (Hv Hl1), (IHkvs Hl2). reflexivity.
Qed.

(** A hashable literal evaluates, to a hashable object. *)
Lemma key_literal_eval e σ :
  key_literal e = true → ∃ v, eval σ e = Ok v ∧ hashable v = true.
Proof.
  induction e as [| | | | x | es IH | es IH | kvs IH] using expr_nested_ind;
    simpl key_literal; intros Hk; try discriminate;
    try (eexists; split; reflexivity).
  assert (∃ l, eval_list σ es = Ok l ∧ forallb hashable l = true) as (l & Hl & Hh).
  { induction IH as [|e es He _ IHes]; [by exists []|].
    simpl in Hk. apply andb_prop in Hk as [Hk1 Hk2].
    destruct (He Hk1) as (v & Hv & Hhv), (IHes Hk2) as (l & Hl & Hhl).
    exists (v :: l). rewrite eval_list_cons, Hv, Hl. simpl. by rewrite Hhv, Hhl. }
  exists (VTuple l). rewrite eval_ETuple, Hl. done.
Qed.

Lemma build_dict_hashable items d :
  forallb (λ kv, hashable kv.1) items = true → succeeds (build_dict items d).
Proof.
  revert d. induction items as [|[k v] items IH]; intros d Hh; simpl.
  - by exists d.
  - simpl in Hh. apply andb_prop in Hh as [Hk Hh]. rewrite Hk. by apply IH.
Qed.

(** A literal display evaluates without error, whatever the namespace. *)
Lemma literal_eval e σ : literal e = true → succeeds (eval σ e).
Proof.
  induction e as [| | | | x | es IH | es IH | kvs IH] using expr_nested_ind;
    simpl literal; intros Hl; try discriminate; try (eexists; reflexivity).
  - assert (succeeds (eval_list σ es)) as [l Hes].
    { induction IH as [|e es He _ IHes]; [by exists []|].
      simpl in Hl. apply andb_prop in Hl as [Hl1 Hl2].
      destruct (He Hl1) as [v Hv], (IHes Hl2) as [l Hes].
      exists (v :: l). by rewrite eval_list_cons, Hv, Hes. }
    exists (VList l). by rewrite eval_EList, Hes.
  - assert (succeeds (eval_list σ es)) as [l Hes].
    { induction IH as [|e es He _ IHes]; [by exists []|].
      simpl in Hl. apply andb_prop in Hl as [Hl1 Hl2].
      destruct (He Hl1) as [v Hv], (IHes Hl2) as [l Hes].
      exists (v :: l). by rewrite eval_list_cons, Hv, Hes. }
    exists (VTuple l). by rewrite eval_ETuple, Hes.
  - assert (∃ items, eval_items σ kvs = Ok items
                     ∧ forallb (λ kv, hashable kv.1) items = true)
      as (items & Hitems & Hh).
    { induction IH as [|[ek ev] kvs [_ Hv] _ IHkvs]; [by exists []|].
      simpl in Hl. apply andb_prop in Hl as [Hl1 Hl2].
      apply andb_prop in Hl1 as [Hk Hl1]. cbn [snd] in Hv.
      destruct (key_literal_eval ek σ Hk) as (k & Hek & Hhk).
      destruct (Hv Hl1) as [v Hev], (IHkvs Hl2) as (items & Hitems & Hh).
      exists ((k, v) :: items). rewrite eval_items_cons, Hek, Hev, Hitems.
      simpl. by rewrite Hhk, Hh. }
    destruct (build_dict_hashable items [] Hh) as [d Hd].
    exists (VDict d). by rewrite eval_EDict, Hitems, bind_Ok, Hd.
Qed.

(** ** Running flat declarations *)

Lemma exec_declaration s σ : declaration s = true → succeeds (exec s σ).
Proof.
  destruct s as [x e| |]; simpl; intros Hd; try discriminate.
  destruct (literal_eval e σ Hd) as [v Hv]. rewrite Hv. by eexists.
Qed.

Lemma exec_declarations m σ :
  forallb declaration m = true → succeeds (exec_module m σ).
Proof.
  revert σ. induction m as [|s m IH]; intros σ Hm; simpl.
  - by exists σ.
  - simpl in Hm. apply andb_prop in Hm as [Hs Hm].
    destruct (exec_declaration s σ Hs) as [σ' Hσ']. rewrite Hσ'. by apply IH.
Qed.

(** Flat declarations neither read nor remove what the namespace held: run
    over any [σ0], they leave their own bindings laid over [σ0]. *)
Lemma exec_declarations_frame m σ0 :
  forallb declaration m = true →
  ∀ σ r, exec_module m σ = Ok r → exec_module m (σ ∪ σ0) = Ok (r ∪ σ0).
Proof.
  induction m as [|s m IH]; intros Hm σ r; simpl.
  - by intros [= ->].
  - simpl in Hm. apply andb_prop in Hm as [Hs Hm].
    destruct s as [x e| |]; try discriminate. simpl in *.
    rewrite (eval_closed e (literal_closed e Hs) (σ ∪ σ0) σ).
    destruct (eval σ e) as [v|]; simpl; [|discriminate].
    rewrite insert_union_l. by apply IH.
Qed.

(** A name that the rest of a run of assignments does not bind keeps its
    value to the end. *)
Lemma exec_assignments_keep m :
  forallb is_assign m = true →
  ∀ σ σ' k, exec_module m σ = Ok σ' → k ∉ assigned m → σ' !! k = σ !! k.
Proof.
  induction m as [|s m IH]; intros Hm σ σ' k; simpl.
  - by intros [= ->].
  - simpl in Hm. apply andb_prop in Hm as [Hs Hm].
    destruct s as [x e| |]; try discriminate. simpl.
    destruct (eval σ e) as [v|]; simpl; [|discriminate].
    intros Hrun Hk. apply not_elem_of_cons in Hk as [Hkx Hk].
    rewrite (IH Hm _ _ _ Hrun Hk). by rewrite lookup_insert_ne.
Qed.

Lemma assigned_app m1 m2 :
  assigned (m1 ++ m2) = (assigned m1 ++ assigned m2)%list.
Proof. unfold assigned. apply flat_map_app. Qed.

(** ** Writing a record back and evaluating it again *)

Lemma dict_set_fresh k v d :
  forallb (λ k', negb (key_eqb k' k)) (map fst d) = true →
  dict_set k v d = (d ++ [(k, v)])%list.
Proof.
  induction d as [|[k' v'] d IH]; simpl; intros Hd; [reflexivity|].
  apply andb_prop in Hd as [Hk Hd].
  apply negb_true_iff in Hk. rewrite Hk, (IH Hd). reflexivity.
Qed.

Lemma distinct_keys_before k ks1 ks2 :
  distinct_keys (ks1 ++ k :: ks2) = true →
  forallb (λ k', negb (key_eqb k' k)) ks1 = true.
Proof.
  induction ks1 as [|a ks1 IH]; simpl; intros Hd; [reflexivity|].
  apply andb_prop in Hd as [Ha Hd].
  rewrite forallb_app in Ha. apply andb_prop in Ha as [_ Ha].
  simpl in Ha. apply andb_prop in Ha as [Ha _].
  rewrite Ha, (IH Hd). reflexivity.
Qed.

(** A display whose keys are hashable and pairwise different builds the
    dictionary of its items, in their order. *)
Lemma build_dict_distinct items d :
  forallb (λ kv, hashable kv.1) items = true →
  distinct_keys (map fst (d ++ items)) = true →
  build_dict items d = Ok (d ++ items)%list.
Proof.
  revert d. induction items as [|[k v] items IH]; intros d Hh Hd; simpl.
  - by rewrite app_nil_r.
  - simpl in Hh. apply andb_prop in Hh as [Hk Hh]. rewrite Hk.
    rewrite map_app in Hd. simpl in Hd.
    rewrite (dict_set_fresh k v d (distinct_keys_before _ _ _ Hd)).
    rewrite IH; [by rewrite <- app_assoc | done |].
    by rewrite <- app_assoc, map_app.
Qed.

Lemma eval_quote v σ : valid v = true → eval σ (quote v) = Ok v.
Proof.
  induction v as [| | | | l IH | l IH | d IH] using value_nested_ind;
    simpl valid; intros Hv; try reflexivity.
  - simpl quote. rewrite eval_EList.
    assert (eval_list σ (map quote l) = Ok l) as ->; [|reflexivity].
    induction IH as [|x l Hx _ IHl]; [reflexivity|].
    simpl in Hv. apply andb_prop in Hv as [Hv1 Hv2].
    by rewrite map_cons, eval_list_cons, (Hx Hv1), bind_Ok, (IHl Hv2).
  - simpl quote. rewrite eval_ETuple.
    assert (eval_list σ (map quote l) = Ok l) as ->; [|reflexivity].
    induction IH as [|x l Hx _ IHl]; [reflexivity|].
    simpl in Hv. apply andb_prop in Hv as [Hv1 Hv2].
    by rewrite map_cons, eval_list_cons, (Hx Hv1), bind_Ok, (IHl Hv2).
  - apply andb_prop in Hv as [Hv Hd].
    simpl quote. rewrite eval_EDict.
    assert (eval_items σ (map (λ kv, (quote kv.1, quote kv.2)) d) = Ok d) as ->.
    { clear Hd. induction IH as [|[k x] d [Hk Hx] _ IHd]; [reflexivity|].
      simpl in Hv. apply andb_prop in Hv as [Hkx Hv].
      apply andb_prop in Hkx as [Hkx Hvx]. apply andb_prop in Hkx as [_ Hvk].
      cbn [fst snd] in Hk, Hx.
      cbn [map fst snd].
      by rewrite eval_items_cons, (Hk Hvk), bind_Ok, (Hx Hvx), bind_Ok, (IHd Hv). }
    rewrite bind_Ok, (build_dict_distinct d []); [reflexivity| |exact Hd].
    clear -Hv. induction d as [|kv d IHd]; [reflexivity|].
    simpl in *. apply andb_prop in Hv as [Hkv Hv].
    apply andb_prop in Hkv as [Hkv _]. apply andb_prop in Hkv as [Hkv _].
    by rewrite Hkv, IHd.
Qed.

Lemma exec_bindings (l : list (string * value)) (σ : gmap string value) :
  NoDup l.*1 →
  Forall (λ kv, valid kv.2 = true) l →
  exec_module (map (λ kv, SAssign kv.1 (quote kv.2)) l) σ
  = Ok (list_to_map l ∪ σ).
Proof.
  revert σ. induction l as [|[k v] l IH]; intros σ Hnd Hv.
  - simpl. by rewrite (left_id_L ∅ (∪)).
  - rewrite fmap_cons in Hnd. apply NoDup_cons in Hnd as [Hk Hnd].
    apply Forall_cons in Hv as [Hvk Hv]. cbn [fst snd] in Hk, Hvk.
    cbn [map exec_module exec fst snd list_to_map foldr uncurry].
    rewrite (eval_quote v σ Hvk), !bind_Ok, (IH _ Hnd Hv).
    f_equal. rewrite <- insert_union_r, insert_union_l; [done|].
    by apply not_elem_of_list_to_map_1.
Qed.

(** Evaluating the module written for a record gives the record back. *)
Lemma load_emit_module (r : gmap string value) :
  map_Forall (λ _ v, valid v = true) r → load (emit_module r) = Ok r.
Proof.
  intros Hr. unfold load, emit_module. rewrite exec_bindings.
  - by rewrite list_to_map_to_list, (right_id_L ∅ (∪)).
  - apply NoDup_fst_map_to_list.
  - apply map_Forall_to_list in Hr. eapply Forall_impl; [exact Hr|].
    by intros [k v].
Qed.

(** ** The module and its record *)

Lemma pelicanconf_flat : forallb declaration pelicanconf = true.
Proof. reflexivity. Qed.

(** The module is the list of the record's entries, each written as the
    assignment of its literal. *)
Lemma pelicanconf_quotes_settings :
  pelicanconf = map (λ kv, SAssign kv.1 (quote kv.2)) settings_items.
Proof. reflexivity. Qed.

Lemma settings_items_NoDup : NoDup settings_items.*1.
Proof. compute_done. Qed.

Lemma settings_items_valid : Forall (λ kv, valid kv.2 = true) settings_items.
Proof.
  apply Forall_forall. intros kv Hkv. apply list_elem_of_In in Hkv.
  revert kv Hkv. apply forallb_forall. vm_compute. reflexivity.
Qed.

Lemma load_pelicanconf : load pelicanconf = Ok settings.
Proof.
  unfold load. rewrite pelicanconf_quotes_settings.
  rewrite (exec_bindings _ _ settings_items_NoDup settings_items_valid).
  rewrite (right_id_L ∅ (∪)). reflexivity.
Qed.

(** Run over a namespace [σ0], the module lays its record over [σ0]. *)
Lemma exec_pelicanconf σ0 : exec_module pelicanconf σ0 = Ok (settings ∪ σ0).
Proof.
  rewrite <- (left_id_L ∅ (∪) σ0) at 1.
  apply (exec_declarations_frame _ _ pelicanconf_flat), load_pelicanconf.
Qed.

Lemma setting_lookup k : setting k = settings !! k.
Proof. unfold setting. rewrite load_pelicanconf. reflexivity. Qed.

Lemma settings_valid : map_Forall (λ _ v, valid v = true) settings.
Proof.
  intros k v Hkv. apply elem_of_list_to_map_2 in Hkv.
  pose proof settings_items_valid as Hall.
  rewrite Forall_forall in Hall. apply (Hall (k, v) Hkv).
Qed.

Lemma read_parsed text m : parse_module text = Some m → read text = Some (load m).
Proof. unfold read. intros ->. reflexivity. Qed.

(** The text of the file denotes the module transcribed above. *)
Lemma parse_pelicanconf_py : parse_module pelicanconf_py = Some pelicanconf.
Proof. vm_compute. reflexivity. Qed.

(** The text written for the record denotes the module of its
    declarations. *)
Lemma parse_emit_settings :
  parse_module (emit settings) = Some (emit_module settings).
Proof. vm_compute. reflexivity. Qed.

Lemma assigned_pelicanconf :
  assigned pelicanconf = [
    "AUTHOR"; "SITENAME"; "SITEURL"; "TIMEZONE"; "DEFAULT_LANG"; "SUBTITLE";
    "SUBTEXT"; "COPYRIGHT"; "PATH"; "THEME"; "THEME_STATIC_PATHS";
    "PLUGIN_PATHS"; "PLUGINS"; "STATIC_PATHS"; "EXTRA_PATH_METADATA";
    "DISPLAY_PAGES_ON_MENU"; "DIRECT_TEMPLATES"; "PAGINATED_TEMPLATES"; "TOC";
    "FEED_ALL_ATOM"; "CATEGORY_FEED_ATOM"; "TRANSLATION_FEED_ATOM";
    "AUTHOR_FEED_ATOM"; "AUTHOR_FEED_RSS"; "RSS_FEED_SUMMARY_ONLY"; "SHARE";
    "DEFAULT_PAGINATION"].
Proof. reflexivity. Qed.

(** ** Schema of the values *)

(** C1: every value of [PAGINATED_TEMPLATES] is an integer or [None], none
    is a string, and [DEFAULT_PAGINATION] is an integer. *)
Theorem pagination_values_typed :
  ∃ d n,
    setting "PAGINATED_TEMPLATES" = Some (VDict d)
    ∧ Forall (λ v, type_of v = TInt ∨ type_of v = TNoneType) (dict_values d)
    ∧ Forall (λ v, type_of v ≠ TStr) (dict_values d)
    ∧ setting "DEFAULT_PAGINATION" = Some (VInt n).
Proof.
  eexists _, _. split; [read_with setting_lookup|].
  split; [|split; [|read_with setting_lookup]].
  - unfold dict_values. simpl. each_element ltac:(simpl; auto).
  - unfold dict_values. simpl. each_element ltac:(simpl; discriminate).
Qed.

(** C2, as stated: [SHARE] holds the pair for whatsapp at index 4, and its
    template, which has unencoded spaces, is not a well-formed URL
    template; so not every entry of [SHARE] is a pair of a non-empty name
    and a well-formed template. *)
Lemma SHARE_whatsapp_template_not_well_formed :
  ∃ l,
    setting "SHARE" = Some (VTuple l)
    ∧ l !! 4%nat
      = Some (VTuple [VStr "whatsapp";
                      VStr "https://api.whatsapp.com/send?text=Features - "])
    ∧ string_mem " " "https://api.whatsapp.com/send?text=Features - " = true
    ∧ well_formed_url_template "https://api.whatsapp.com/send?text=Features - "
      = false
    ∧ forallb (share_entry well_formed_url_template) l = false.
Proof.
  eexists. split; [read_with setting_lookup|].
  repeat split; vm_compute; reflexivity.
Qed.

(** C2, amended: every element of [SHARE] is a pair of a non-empty
    platform name and an http(s) URL prefix with a non-empty host, written
    in URI characters and unencoded spaces; the templates of all entries
    but the one named whatsapp are well-formed URL templates, free of
    spaces. *)
Theorem SHARE_entries_shape :
  ∃ l,
    setting "SHARE" = Some (VTuple l)
    ∧ Forall (λ e, ∃ name template,
                e = VTuple [VStr name; VStr template]
                ∧ name ≠ ""
                ∧ url_template_with_spaces template = true
                ∧ (name = "whatsapp" ∨ well_formed_url_template template = true))
        l.
Proof.
  eexists. split; [read_with setting_lookup|].
  each_element ltac:(
    eexists _, _; split; [reflexivity|]; split; [discriminate|];
    split; [vm_compute; reflexivity|];
    first [left; reflexivity | right; vm_compute; reflexivity]).
Qed.

(** C5: the five feed path settings are each a string or [None], and
    [RSS_FEED_SUMMARY_ONLY] is a boolean. *)
Theorem feed_settings_typed :
  Forall (λ k, ∃ v, setting k = Some v
                    ∧ (type_of v = TStr ∨ type_of v = TNoneType))
    ["FEED_ALL_ATOM"; "CATEGORY_FEED_ATOM"; "TRANSLATION_FEED_ATOM";
     "AUTHOR_FEED_ATOM"; "AUTHOR_FEED_RSS"]
  ∧ ∃ b, setting "RSS_FEED_SUMMARY_ONLY" = Some (VBool b).
Proof.
  split; [|eexists; read_with setting_lookup].
  each_element ltac:(eexists; split; [read_with setting_lookup|]; simpl; auto).
Qed.

(** C9: the keys of [EXTRA_PATH_METADATA] are ['extra/robots.txt'] and
    ['images/favicon.ico'], and each is an element of [STATIC_PATHS]. *)
Theorem extra_path_metadata_keys_static :
  ∃ d l,
    setting "EXTRA_PATH_METADATA" = Some (VDict d)
    ∧ setting "STATIC_PATHS" = Some (VList l)
    ∧ dict_keys d = [VStr "extra/robots.txt"; VStr "images/favicon.ico"]
    ∧ Forall (λ k, k ∈ l) (dict_keys d).
Proof.
  eexists _, _. split; [read_with setting_lookup|].
  split; [read_with setting_lookup|].
  split; [reflexivity|].
  unfold dict_keys. simpl. each_element ltac:(set_solver).
Qed.

(** C10: [FEED_ALL_ATOM] is the path ['feeds/all.atom.xml'], the four other
    feed path settings are [None], and of the feed path keys the module
    binds, [FEED_ALL_ATOM] is the only one that enables a feed. *)
Theorem exactly_one_feed_enabled :
  setting "FEED_ALL_ATOM" = Some (VStr "feeds/all.atom.xml")
  ∧ Forall (λ k, setting k = Some VNone)
      ["CATEGORY_FEED_ATOM"; "TRANSLATION_FEED_ATOM"; "AUTHOR_FEED_ATOM";
       "AUTHOR_FEED_RSS"]
  ∧ List.filter is_feed_path_key (assigned pelicanconf)
    = ["FEED_ALL_ATOM"; "CATEGORY_FEED_ATOM"; "TRANSLATION_FEED_ATOM";
       "AUTHOR_FEED_ATOM"; "AUTHOR_FEED_RSS"]
  ∧ List.filter feed_enabled (List.filter is_feed_path_key (assigned pelicanconf))
    = ["FEED_ALL_ATOM"].
Proof.
  split; [read_with setting_lookup|].
  split; [each_element ltac:(read_with setting_lookup)|].
  split; [vm_compute; reflexivity|].
  assert (∀ k, feed_enabled k
               = match settings !! k with Some (VStr _) => true | _ => false end)
    as Hfe by (intros k; unfold feed_enabled; by rewrite setting_lookup).
  rewrite (filter_ext _ _ Hfe). vm_compute. reflexivity.
Qed.

(** ** The module as a program *)

(** C6: every key is bound exactly once, by a plain assignment; the module
    deletes nothing; the keys bound are the keys of the record; and a key,
    once bound, holds the same value after every later statement. *)
Theorem pelicanconf_keys_bound_once :
  NoDup (assigned pelicanconf)
  ∧ deleted pelicanconf = []
  ∧ forallb is_assign pelicanconf = true
  ∧ dom settings = list_to_set (assigned pelicanconf)
  ∧ ∀ pre post σ0 σ σ' k,
      pelicanconf = (pre ++ post)%list →
      exec_module pre σ0 = Ok σ →
      exec_module post σ = Ok σ' →
      k ∈ assigned pre →
      σ' !! k = σ !! k.
Proof.
  assert (NoDup (assigned pelicanconf)) as Hnd.
  { rewrite assigned_pelicanconf. compute_done. }
  split; [exact Hnd|]. split; [reflexivity|]. split; [reflexivity|].
  split.
  { unfold settings. rewrite dom_list_to_map_L, assigned_pelicanconf.
    reflexivity. }
  intros pre post σ0 σ σ' k Hm _ Hpost Hk.
  assert (forallb is_assign (pre ++ post) = true) as Ha by (by rewrite <- Hm).
  rewrite forallb_app in Ha. apply andb_prop in Ha as [_ Ha].
  apply (exec_assignments_keep post Ha σ σ' k Hpost).
  rewrite Hm, assigned_app in Hnd. apply NoDup_app in Hnd as (_ & Hnd & _).
  by apply Hnd.
Qed.

(** C6 at work: [AUTHOR], bound by the first statement, still holds its
    value after the twenty-six statements that follow. *)
Lemma pelicanconf_keys_bound_once_witness :
  ∃ σ', exec_module (drop 1 pelicanconf) {["AUTHOR" := VStr "Leon Ramzews"]} = Ok σ'
        ∧ σ' !! "AUTHOR" = Some (VStr "Leon Ramzews").
Proof.
  destruct (exec_declarations (drop 1 pelicanconf)
              {["AUTHOR" := VStr "Leon Ramzews"]} eq_refl) as [σ' Hσ'].
  exists σ'. split; [exact Hσ'|].
  destruct pelicanconf_keys_bound_once as (_ & _ & _ & _ & Hkeep).
  rewrite (Hkeep (take 1 pelicanconf) (drop 1 pelicanconf) ∅
             {["AUTHOR" := VStr "Leon Ramzews"]} σ' "AUTHOR"
             eq_refl eq_refl Hσ').
  - apply lookup_singleton_eq.
  - simpl. apply list_elem_of_here.
Defined.

(** C7: run from any namespace, the module ends without raising, and so
    does each of its statements taken alone: the right-hand side of every
    assignment is a literal display with hashable keys, which no namespace
    can make fail. *)
Theorem pelicanconf_cannot_fail :
  (∀ σ0, succeeds (exec_module pelicanconf σ0))
  ∧ (∀ σ0 ex, exec_module pelicanconf σ0 ≠ Raise ex)
  ∧ Forall (λ s, ∀ σ, succeeds (exec s σ)) pelicanconf
  ∧ Forall (λ s, ∃ x e, s = SAssign x e ∧ ∀ σ, succeeds (eval σ e)) pelicanconf.
Proof.
  assert (∀ σ0, succeeds (exec_module pelicanconf σ0)) as Hrun
    by (intros σ0; apply exec_declarations, pelicanconf_flat).
  pose proof pelicanconf_flat as Hflat. rewrite forallb_forall in Hflat.
  split; [exact Hrun|]. split; [|split].
  - intros σ0 ex Hex. destruct (Hrun σ0) as [σ Hσ]. congruence.
  - apply Forall_forall. intros s Hs σ.
    apply exec_declaration, Hflat. by apply list_elem_of_In.
  - apply Forall_forall. intros s Hs. apply list_elem_of_In, Hflat in Hs.
    destruct s as [x e| |]; try discriminate.
    exists x, e. split; [reflexivity|]. intros σ. by apply literal_eval.
Qed.

(** C8: the module is a list of flat declarations, without branches and
    without reads; from an empty namespace it yields the record [settings];
    from any namespace [σ0] it yields [settings] laid over [σ0]; hence two
    evaluations agree with [settings], and with each other, on every key
    the module binds. *)
Theorem pelicanconf_deterministic :
  forallb declaration pelicanconf = true
  ∧ load pelicanconf = Ok settings
  ∧ (∀ σ0, exec_module pelicanconf σ0 = Ok (settings ∪ σ0))
  ∧ ∀ σ1 σ2, ∃ r1 r2,
      exec_module pelicanconf σ1 = Ok r1
      ∧ exec_module pelicanconf σ2 = Ok r2
      ∧ Forall (λ k, r1 !! k = settings !! k ∧ r2 !! k = settings !! k)
          (assigned pelicanconf).
Proof.
  split; [apply pelicanconf_flat|]. split; [apply load_pelicanconf|].
  split; [apply exec_pelicanconf|].
  intros σ1 σ2. exists (settings ∪ σ1), (settings ∪ σ2).
  split; [apply exec_pelicanconf|]. split; [apply exec_pelicanconf|].
  assert (Forall (λ k, is_Some (settings !! k)) (assigned pelicanconf)) as Hdom.
  { apply Forall_forall. intros k Hk. apply elem_of_dom.
    unfold settings.
    rewrite dom_list_to_map_L. rewrite assigned_pelicanconf in Hk.
    apply elem_of_list_to_set. exact Hk. }
  eapply Forall_impl; [exact Hdom|]. intros k [v Hv]. cbv beta.
  by rewrite !(lookup_union_Some_l _ _ _ _ Hv).
Qed.

(** ** Round trip through text *)

Lemma emit_differs_from_source : emit settings ≠ pelicanconf_py.
Proof.
  intros Heq. apply (f_equal (λ s, N.of_nat (String.length s))) in Heq.
  vm_compute in Heq. discriminate.
Qed.

(** C4: the text of the file parses to the record [settings]; the text
    emitted for that record parses to the same record; the two texts
    differ. *)
Theorem settings_round_trip :
  read pelicanconf_py = Some (Ok settings)
  ∧ read (emit settings) = Some (Ok settings)
  ∧ emit settings ≠ pelicanconf_py.
Proof.
  split; [|split].
  - by rewrite (read_parsed _ _ parse_pelicanconf_py), load_pelicanconf.
  - rewrite (read_parsed _ _ parse_emit_settings).
    by rewrite (load_emit_module _ settings_valid).
  - apply emit_differs_from_source.
Qed.

(** * Further properties of the settings *)

(** ** URL prefixes under extension *)








(** ** Options, paths and names *)

(** X1: the options of [TOC] are all named [TOC_...] and are all strings,
    none a boolean; [TOC_RUN] is the string ['true'], which the comment
    beside it names as the value that turns generation on; and
    [TOC_INCLUDE_TITLE] is a string other than ['true'], although as an
    object it is true. *)
Theorem TOC_options_are_strings :
  ∃ d,
    setting "TOC" = Some (VDict d)
    ∧ Forall (λ kv, ∃ k s, kv = (VStr k, VStr s)
                           ∧ is_Some (strip_prefix "TOC_" k)) d
    ∧ dict_get (VStr "TOC_RUN") d = Some (VStr "true")
    ∧ ∃ s, dict_get (VStr "TOC_INCLUDE_TITLE") d = Some (VStr s)
           ∧ s ≠ "true"
           ∧ truthy (VStr s) = true.
Proof.
  eexists. split; [read_with setting_lookup|]. split; [|split].
  - each_element ltac:(eexists _, _; split; [reflexivity|]; by eexists).
  - reflexivity.
  - eexists. split; [reflexivity|]. split; [discriminate | reflexivity].
Qed.

(** X2: every entry of [EXTRA_PATH_METADATA] maps a source path to a
    dictionary with the single key ['path']; the target is the last
    component of the source path and holds no [/]; and the targets are
    pairwise different, so no two files are sent to one place. *)
Theorem extra_path_metadata_targets :
  ∃ d,
    setting "EXTRA_PATH_METADATA" = Some (VDict d)
    ∧ Forall (λ kv, ∃ src dst,
                kv = (VStr src, VDict [(VStr "path", VStr dst)])
                ∧ dst = basename src
                ∧ string_mem "/" dst = false) d
    ∧ length (metadata_targets d) = length d
    ∧ NoDup (metadata_targets d).
Proof.
  eexists. split; [read_with setting_lookup|]. split; [|split].
  - each_element ltac:(
      eexists _, _; split; [reflexivity|]; split; vm_compute; reflexivity).
  - reflexivity.
  - vm_compute. compute_done.
Qed.

(** X3: the twelve paths the module names (content, theme, theme static,
    plugin and static paths, the sources and targets of the extra
    metadata, the feed path) are all relative paths without an empty, [.]
    or [..] component: none leaves the directory it is resolved in. *)
Theorem configured_paths_relative :
  configured_paths
  = ["content"; "themes/Papyrus"; "static"; "pelican-plugins";
     "images"; "images/favicon.ico"; "extra/robots.txt";
     "extra/robots.txt"; "images/favicon.ico"; "robots.txt"; "favicon.ico";
     "feeds/all.atom.xml"]
  ∧ Forall (λ p, relative_path p = true) configured_paths.
Proof.
  assert (configured_paths
          = ["content"; "themes/Papyrus"; "static"; "pelican-plugins";
             "images"; "images/favicon.ico"; "extra/robots.txt";
             "extra/robots.txt"; "images/favicon.ico"; "robots.txt";
             "favicon.ico"; "feeds/all.atom.xml"]) as Heq.
  { unfold configured_paths, setting_strings. rewrite !setting_lookup.
    vm_compute. reflexivity. }
  split; [exact Heq|]. rewrite Heq.
  each_element ltac:(vm_compute; reflexivity).
Qed.

(** X4: every page size the module gives is positive: [DEFAULT_PAGINATION]
    is, and every value of [PAGINATED_TEMPLATES] is [None] or a positive
    integer. *)
Theorem page_sizes_positive :
  ∃ d n,
    setting "PAGINATED_TEMPLATES" = Some (VDict d)
    ∧ setting "DEFAULT_PAGINATION" = Some (VInt n)
    ∧ 0 < n
    ∧ Forall (λ v, v = VNone ∨ ∃ m, v = VInt m ∧ 0 < m) (dict_values d).
Proof.
  eexists _, _. split; [read_with setting_lookup|].
  split; [read_with setting_lookup|]. split; [lia|].
  unfold dict_values. simpl.
  each_element ltac:(first [left; reflexivity
                           | right; eexists; split; [reflexivity | lia]]).
Qed.

(** X5: in spite of the doubled parentheses, [DIRECT_TEMPLATES] is a flat
    tuple: each of its four elements is a string, none a tuple; the names
    are non-empty and pairwise different; and the direct templates that
    [PAGINATED_TEMPLATES] has an entry for are [index] and [archives]. *)
Theorem direct_templates_flat :
  ∃ l d,
    setting "DIRECT_TEMPLATES" = Some (VTuple l)
    ∧ setting "PAGINATED_TEMPLATES" = Some (VDict d)
    ∧ length l = 4%nat
    ∧ Forall (λ v, ∃ s, v = VStr s ∧ s ≠ "") l
    ∧ NoDup (strings_of (VTuple l))
    ∧ List.filter (λ s, bool_decide (is_Some (dict_get (VStr s) d)))
        (strings_of (VTuple l))
      = ["index"; "archives"].
Proof.
  eexists _, _. split; [read_with setting_lookup|].
  split; [read_with setting_lookup|]. split; [reflexivity|].
  split; [|split].
  - each_element ltac:(eexists; split; [reflexivity | discriminate]).
  - vm_compute. compute_done.
  - vm_compute. reflexivity.
Qed.

(** X6: the ten settings that describe the site and its layout are
    non-empty strings, on one line each except [SUBTEXT]; and [SITEURL] is
    a well-formed URL prefix that does not end in [/]. *)
Theorem text_settings_shape :
  Forall (λ k, ∃ s, setting k = Some (VStr s)
                    ∧ s ≠ ""
                    ∧ (k = "SUBTEXT" ∨ single_line s = true)) text_settings
  ∧ ∃ u, setting "SITEURL" = Some (VStr u)
         ∧ well_formed_url_template u = true
         ∧ ends_with "/" u = false.
Proof.
  split.
  - each_element ltac:(
      eexists; split; [read_with setting_lookup|]; split; [discriminate|];
      first [left; reflexivity | right; vm_compute; reflexivity]).
  - eexists. split; [read_with setting_lookup|]. split; vm_compute; reflexivity.
Qed.





(** X10: the value kept under each key is the very literal written in its
    assignment: no item of a dictionary display is lost to a repeated key,
    and no key takes the value of a later statement. *)
Theorem stored_values_are_the_literals :
  Forall (λ s, ∃ x e v, s = SAssign x e
                        ∧ setting x = Some v
                        ∧ quote v = e
                        ∧ valid v = true) pelicanconf.
Proof.
  rewrite pelicanconf_quotes_settings. apply Forall_fmap, Forall_forall.
  intros [x v] Hxv. exists x, (quote v), v.
  split; [reflexivity|]. split; [|split; [reflexivity|]].
  - rewrite setting_lookup.
    by apply elem_of_list_to_map_1; [apply settings_items_NoDup|].
  - pose proof settings_items_valid as Hall.
    rewrite Forall_forall in Hall. apply (Hall _ Hxv).
Qed.
